(** * llmRouter.js: dispatch, request building and response extraction

    A shallow embedding of [llmRouter.js] ([callLLM], [callOpenAI],
    [callGemini], [callOpenRouter]) together with the parts of the
    JavaScript runtime the router relies on: strings as sequences of
    UTF-16 code units, property reads on JSON-shaped values,
    [Buffer.from(s).toString("base64")], [JSON.stringify], [JSON.parse]
    and [fetch].

    Asynchronous code is written in a small free monad [Async] whose only
    effects are the two awaited operations of the source: [fetch(url, init)]
    and [response.json()].  Running a program against a network handler
    yields the list of effects performed and the settled outcome of the
    promise. *)

From Stdlib Require Import ZArith List String Ascii Bool Lia.
Import ListNotations.
Open Scope Z_scope.
Open Scope list_scope.

(** ** JavaScript strings *)

(** A JavaScript string is a sequence of 16-bit code units. *)
Definition jsstring := list Z.

Definition is_code_unit (c : Z) : bool := (0 <=? c) && (c <? 65536).
Definition is_jsstring (s : jsstring) : bool := forallb is_code_unit s.

(** ASCII literals of the source, as code units. *)
Definition js (s : string) : jsstring :=
  map (fun a => Z.of_N (N_of_ascii a)) (list_ascii_of_string s).

(** Strict equality [===] on strings. *)
Fixpoint str_eqb (a b : jsstring) : bool :=
  match a, b with
  | [], [] => true
  | x :: a', y :: b' => (x =? y) && str_eqb a' b'
  | _, _ => false
  end.

(** [Array.prototype.join] on an array of strings. *)
Fixpoint join (sep : jsstring) (parts : list jsstring) : jsstring :=
  match parts with
  | [] => []
  | [p] => p
  | p :: rest => p ++ sep ++ join sep rest
  end.

(** The line feed character. *)
Definition LF : jsstring := [10].

(** Decimal rendering of a non-negative integer, as [String(n)] does for
    the integers below 10^21. *)
Fixpoint uint_to_js (d : Decimal.uint) : jsstring :=
  match d with
  | Decimal.Nil => []
  | Decimal.D0 d' => 48 :: uint_to_js d'
  | Decimal.D1 d' => 49 :: uint_to_js d'
  | Decimal.D2 d' => 50 :: uint_to_js d'
  | Decimal.D3 d' => 51 :: uint_to_js d'
  | Decimal.D4 d' => 52 :: uint_to_js d'
  | Decimal.D5 d' => 53 :: uint_to_js d'
  | Decimal.D6 d' => 54 :: uint_to_js d'
  | Decimal.D7 d' => 55 :: uint_to_js d'
  | Decimal.D8 d' => 56 :: uint_to_js d'
  | Decimal.D9 d' => 57 :: uint_to_js d'
  end.

Definition N_to_js (n : N) : jsstring := uint_to_js (N.to_uint n).

(** ** JavaScript values *)

Local Set Warnings "-register-all".

(** A JSON number, kept as the exact decimal [(-1)^neg * mant * 10^exp10].
    The router never computes with numbers; it only carries them. *)
Record number := Num { num_neg : bool; num_mant : N; num_exp10 : Z }.

Inductive value :=
| VUndefined
| VNull
| VBool (b : bool)
| VNum (n : number)
| VStr (s : jsstring)
| VArr (elems : list value)
| VObj (props : list (jsstring * value)).

Inductive Error :=
| Err (message : jsstring)
    (* [new Error(message)] *)
| TypeError_read (base : value) (key : jsstring)
    (* reading property [key] of [undefined] or [null] *)
| SyntaxError (text : jsstring)
    (* [JSON.parse] rejecting [text] *)
| FetchFailed (message : jsstring).
    (* the transport rejecting the request *)

Definition Result (A : Type) : Type := (Error + A)%type.

(** *** Property reads *)

Fixpoint lookup (k : jsstring) (props : list (jsstring * value)) : option value :=
  match props with
  | [] => None
  | (k', v) :: rest => if str_eqb k k' then Some v else lookup k rest
  end.

Definition digit_of (c : Z) : option nat :=
  if (48 <=? c) && (c <=? 57) then Some (Z.to_nat (c - 48)) else None.

Fixpoint digits_value (acc : nat) (s : jsstring) : option nat :=
  match s with
  | [] => Some acc
  | c :: rest =>
      match digit_of c with
      | Some d => digits_value (10 * acc + d) rest
      | None => None
      end
  end.

(** A property key is an array index when it is the canonical decimal
    numeral of a natural number ("0", "7", "12", but not "01" or ""). *)
Definition array_index (k : jsstring) : option nat :=
  match k with
  | [] => None
  | [c] => digit_of c
  | c :: _ => if c =? 48 then None else digits_value 0 k
  end.

(** [base[key]] / [base.key].  Reading from [undefined] or [null] throws;
    a missing property reads as [undefined].  Properties inherited from
    the built-in prototypes are not modelled: none of the keys the router
    reads is one. *)
Definition get (base : value) (key : jsstring) : Result value :=
  match base with
  | VUndefined | VNull => inl (TypeError_read base key)
  | VObj props =>
      match lookup key props with
      | Some v => inr v
      | None => inr VUndefined
      end
  | VArr elems =>
      if str_eqb key (js "length")
      then inr (VNum (Num false (N.of_nat (List.length elems)) 0))
      else match array_index key with
           | Some i => inr (nth i elems VUndefined)
           | None => inr VUndefined
           end
  | VStr s =>
      if str_eqb key (js "length")
      then inr (VNum (Num false (N.of_nat (List.length s)) 0))
      else match array_index key with
           | Some i =>
               match nth_error s i with
               | Some c => inr (VStr [c])
               | None => inr VUndefined
               end
           | None => inr VUndefined
           end
  | VBool _ | VNum _ => inr VUndefined
  end.

(** A member-expression chain [base.k1.k2...kn], read left to right. *)
Fixpoint get_path (base : value) (keys : list jsstring) : Result value :=
  match keys with
  | [] => inr base
  | k :: rest =>
      match get base k with
      | inl e => inl e
      | inr v => get_path v rest
      end
  end.

(** [v !== null] *)
Definition not_null (v : value) : bool :=
  match v with
  | VNull => false
  | _ => true
  end.

(** ** [Buffer.from(s).toString("base64")] *)

Definition is_high_surrogate (c : Z) : bool := (55296 <=? c) && (c <=? 56319).
Definition is_low_surrogate (c : Z) : bool := (56320 <=? c) && (c <=? 57343).

(** UTF-8 bytes of one code point. *)
Definition utf8_bytes (cp : Z) : list Z :=
  if cp <? 128 then [cp]
  else if cp <? 2048 then [192 + cp / 64; 128 + cp mod 64]
  else if cp <? 65536 then
    [224 + cp / 4096; 128 + (cp / 64) mod 64; 128 + cp mod 64]
  else
    [240 + cp / 262144; 128 + (cp / 4096) mod 64;
     128 + (cp / 64) mod 64; 128 + cp mod 64].

(** [Buffer.from(s)]: the UTF-8 encoding of a string.  A surrogate pair
    becomes one four-byte sequence; a surrogate code unit without its
    partner is replaced by U+FFFD (bytes EF BF BD). *)
Fixpoint Buffer_from (s : jsstring) : list Z :=
  match s with
  | [] => []
  | c :: rest =>
      if is_high_surrogate c then
        match rest with
        | d :: rest' =>
            if is_low_surrogate d
            then utf8_bytes (65536 + (c - 55296) * 1024 + (d - 56320))
                   ++ Buffer_from rest'
            else utf8_bytes 65533 ++ Buffer_from rest
        | [] => utf8_bytes 65533
        end
      else if is_low_surrogate c then utf8_bytes 65533 ++ Buffer_from rest
      else utf8_bytes c ++ Buffer_from rest
  end.

(** The base64 alphabet: A-Z, a-z, 0-9, '+', '/'. *)
Definition b64_char (i : Z) : Z :=
  if i <? 26 then 65 + i
  else if i <? 52 then 71 + i
  else if i <? 62 then i - 4
  else if i =? 62 then 43
  else 47.

(** [buf.toString("base64")]: three bytes form a 24-bit group that is cut
    into four 6-bit digits; a final group of one or two bytes is padded
    with '='. *)
Fixpoint toString_base64 (bytes : list Z) : jsstring :=
  match bytes with
  | [] => []
  | [a] =>
      let n := a * 65536 in
      [b64_char (n / 262144); b64_char ((n / 4096) mod 64); 61; 61]
  | [a; b] =>
      let n := a * 65536 + b * 256 in
      [b64_char (n / 262144); b64_char ((n / 4096) mod 64);
       b64_char ((n / 64) mod 64); 61]
  | a :: b :: c :: rest =>
      let n := a * 65536 + b * 256 + c in
      b64_char (n / 262144) :: b64_char ((n / 4096) mod 64)
        :: b64_char ((n / 64) mod 64) :: b64_char (n mod 64)
        :: toString_base64 rest
  end.

(** *** The consumer's side: decoding

    The router only encodes.  The decoders below are what a consumer of
    the [user] field applies: base64 to bytes, bytes (strict UTF-8) back to
    a string. *)

Definition b64_index (c : Z) : option Z :=
  if (65 <=? c) && (c <=? 90) then Some (c - 65)
  else if (97 <=? c) && (c <=? 122) then Some (c - 71)
  else if (48 <=? c) && (c <=? 57) then Some (c + 4)
  else if c =? 43 then Some 62
  else if c =? 47 then Some 63
  else None.

Fixpoint base64_decode (s : jsstring) : option (list Z) :=
  match s with
  | [] => Some []
  | c0 :: c1 :: c2 :: c3 :: rest =>
      match b64_index c0, b64_index c1 with
      | Some i0, Some i1 =>
          if (c2 =? 61) && (c3 =? 61) then
            match rest with
            | [] => Some [(i0 * 262144 + i1 * 4096) / 65536]
            | _ => None
            end
          else
            match b64_index c2 with
            | Some i2 =>
                if c3 =? 61 then
                  let n := i0 * 262144 + i1 * 4096 + i2 * 64 in
                  match rest with
                  | [] => Some [n / 65536; (n / 256) mod 256]
                  | _ => None
                  end
                else
                  match b64_index c3 with
                  | Some i3 =>
                      let n := i0 * 262144 + i1 * 4096 + i2 * 64 + i3 in
                      option_map
                        (fun bs => n / 65536 :: (n / 256) mod 256 :: n mod 256 :: bs)
                        (base64_decode rest)
                  | None => None
                  end
            | None => None
            end
      | _, _ => None
      end
  | _ => None
  end.

(** UTF-16 code units of one code point. *)
Definition utf16_units (cp : Z) : jsstring :=
  if cp <? 65536 then [cp]
  else [55296 + (cp - 65536) / 1024; 56320 + (cp - 65536) mod 1024].

Definition is_continuation (b : Z) : bool := (128 <=? b) && (b <=? 191).

Definition is_scalar (cp : Z) : bool :=
  ((0 <=? cp) && (cp <? 55296)) || ((57344 <=? cp) && (cp <? 1114112)).

(** Strict UTF-8 decoding: overlong forms, encoded surrogates, code points
    above U+10FFFF and truncated sequences are rejected. *)
Fixpoint utf8_decode (bytes : list Z) : option jsstring :=
  match bytes with
  | [] => Some []
  | b0 :: r0 =>
      if (0 <=? b0) && (b0 <? 128) then option_map (cons b0) (utf8_decode r0)
      else if (192 <=? b0) && (b0 <? 224) then
        match r0 with
        | b1 :: r1 =>
            let cp := (b0 - 192) * 64 + (b1 - 128) in
            if is_continuation b1 && (128 <=? cp)
            then option_map (app (utf16_units cp)) (utf8_decode r1)
            else None
        | _ => None
        end
      else if (224 <=? b0) && (b0 <? 240) then
        match r0 with
        | b1 :: b2 :: r2 =>
            let cp := (b0 - 224) * 4096 + (b1 - 128) * 64 + (b2 - 128) in
            if is_continuation b1 && is_continuation b2
               && (2048 <=? cp) && is_scalar cp
            then option_map (app (utf16_units cp)) (utf8_decode r2)
            else None
        | _ => None
        end
      else if (240 <=? b0) && (b0 <? 248) then
        match r0 with
        | b1 :: b2 :: b3 :: r3 =>
            let cp := (b0 - 240) * 262144 + (b1 - 128) * 4096
                      + (b2 - 128) * 64 + (b3 - 128) in
            if is_continuation b1 && is_continuation b2 && is_continuation b3
               && (65536 <=? cp) && is_scalar cp
            then option_map (app (utf16_units cp)) (utf8_decode r3)
            else None
        | _ => None
        end
      else None
  end.

Definition is_byte (b : Z) : bool := (0 <=? b) && (b <? 256).
Definition is_bytes (bs : list Z) : bool := forallb is_byte bs.

(** The characters of base64 text: the alphabet and the padding '='. *)
Definition is_b64_symbol (c : Z) : bool :=
  ((65 <=? c) && (c <=? 90)) || ((97 <=? c) && (c <=? 122))
  || ((48 <=? c) && (c <=? 57)) || (c =? 43) || (c =? 47) || (c =? 61).

(** What a consumer does with a received [user] field. *)
Definition decode_user (field : jsstring) : option jsstring :=
  match base64_decode field with
  | Some bytes => utf8_decode bytes
  | None => None
  end.

(** [String.prototype.isWellFormed]: no surrogate code unit without its
    partner. *)
Fixpoint isWellFormed (s : jsstring) : bool :=
  match s with
  | [] => true
  | c :: rest =>
      if is_high_surrogate c then
        match rest with
        | d :: rest' => is_low_surrogate d && isWellFormed rest'
        | [] => false
        end
      else if is_low_surrogate c then false
      else is_code_unit c && isWellFormed rest
  end.

(** ** [JSON.stringify]

    The request body is JSON text.  It is represented by the JSON document
    that text denotes: in an object a property whose value is [undefined]
    is left out, in an array an [undefined] element is written as [null],
    a number is written in its normal form with -0 written as 0, and every
    other value is written as it is. *)

(** *** Numbers in normal form *)

Fixpoint drop_zeros (ds : list Z) : list Z :=
  match ds with
  | d :: r => if d =? 0 then drop_zeros r else ds
  | [] => []
  end.

Definition digits_to_N (ds : list Z) : N :=
  fold_left (fun a d => (10 * a + Z.to_N d)%N) ds 0%N.

(** The number with significant digits [ds] (most significant first) and
    decimal exponent [e], in normal form: no trailing zero in the
    mantissa, and exponent 0 for zero. *)
Definition make_number (neg : bool) (ds : list Z) (e : Z) : number :=
  let sig := rev (drop_zeros (rev ds)) in
  let m := digits_to_N sig in
  if (m =? 0)%N then Num neg 0 0
  else Num neg m (e + Z.of_nat (List.length ds) - Z.of_nat (List.length sig)).

Definition uint_digits (n : N) : list Z := map (fun c => c - 48) (N_to_js n).

(** The number that the JSON text written for [x] denotes: [x] in normal
    form, and 0 for -0 (which is written "0"). *)
Definition stringify_number (x : number) : number :=
  let y := make_number (num_neg x) (uint_digits (num_mant x)) (num_exp10 x) in
  if (num_mant y =? 0)%N then Num false 0 0 else y.

Definition stringify_element (d : value) : value :=
  match d with
  | VUndefined => VNull
  | _ => d
  end.

Definition stringify_members (stringify : value -> value)
  : list (jsstring * value) -> list (jsstring * value) :=
  fix members (ps : list (jsstring * value)) :=
    match ps with
    | [] => []
    | (k, x) :: rest =>
        match stringify x with
        | VUndefined => members rest
        | d => (k, d) :: members rest
        end
    end.

Fixpoint JSON_stringify (v : value) : value :=
  match v with
  | VArr elems => VArr (map (fun e => stringify_element (JSON_stringify e)) elems)
  | VObj props => VObj (stringify_members JSON_stringify props)
  | VNum x => VNum (stringify_number x)
  | _ => v
  end.

(** ** The request type [LLMParams] *)

Record Message := { role : jsstring; content : jsstring }.

(** Optional properties are [None] when absent ([undefined]). *)
Record LLMParams := {
  provider : jsstring;
  modelName : jsstring;
  apiKey : jsstring;
  messages : list Message;
  temperature : option number;
  user : option jsstring;
  tools : option (list value);
  response_format : option value
}.

Definition Message_value (m : Message) : value :=
  VObj [(js "role", VStr (role m)); (js "content", VStr (content m))].

Definition optional {A : Type} (f : A -> value) (o : option A) : value :=
  match o with
  | Some a => f a
  | None => VUndefined
  end.

(** [o ?? d] *)
Definition nullish {A : Type} (o : option A) (d : A) : A :=
  match o with
  | Some a => a
  | None => d
  end.

(** The request [p] with its [user] property replaced by [u]. *)
Definition with_user (u : option jsstring) (p : LLMParams) : LLMParams :=
  {| provider := provider p;
     modelName := modelName p;
     apiKey := apiKey p;
     messages := messages p;
     temperature := temperature p;
     user := u;
     tools := tools p;
     response_format := response_format p |}.

(** The request [p] with the four properties [temperature], [user],
    [tools] and [response_format] replaced. *)
Definition with_options (t : option number) (u : option jsstring)
    (tl : option (list value)) (rf : option value) (p : LLMParams) : LLMParams :=
  {| provider := provider p;
     modelName := modelName p;
     apiKey := apiKey p;
     messages := messages p;
     temperature := t;
     user := u;
     tools := tl;
     response_format := rf |}.

(** The transcript as the specification words it: one line per message,
    in order, each written [[role] content], the lines joined by line
    feeds. *)
Definition transcript_line (m : Message) : jsstring :=
  js "[" ++ role m ++ js "] " ++ content m.

Fixpoint transcript (ms : list Message) : jsstring :=
  match ms with
  | [] => []
  | [m] => transcript_line m
  | m :: rest => transcript_line m ++ LF ++ transcript rest
  end.

(** The request [p] with its messages replaced by [ms]. *)
Definition with_messages (ms : list Message) (p : LLMParams) : LLMParams :=
  {| provider := provider p;
     modelName := modelName p;
     apiKey := apiKey p;
     messages := ms;
     temperature := temperature p;
     user := user p;
     tools := tools p;
     response_format := response_format p |}.

(** One message in place of two: the first, with a line feed and the
    second one's transcript line added to its content. *)
Definition merged (m1 m2 : Message) : Message :=
  {| role := role m1;
     content := content m1 ++ LF ++ js "[" ++ role m2 ++ js "] " ++ content m2 |}.

(** ** HTTP *)

Record RequestInit := {
  method : jsstring;
  headers : list (jsstring * jsstring);
  body : option value
}.

(** [{ ...options, body: postData }] *)
Definition with_body (options : RequestInit) (postData : value) : RequestInit :=
  {| method := method options; headers := headers options; body := Some postData |}.

Record Response := {
  status : N;
  statusText : jsstring;
  text : jsstring
}.

(** [response.ok]: the status is in the range 200-299. *)
Definition ok (r : Response) : bool :=
  ((200 <=? status r) && (status r <=? 299))%N.

(** ** Asynchronous programs *)

Inductive Async (A : Type) : Type :=
| Resolve (a : A)
| Reject (e : Error)
| AwaitFetch (url : jsstring) (init : RequestInit) (k : Response -> Async A)
| AwaitJson (r : Response) (k : value -> Async A).

Arguments Resolve {A} a.
Arguments Reject {A} e.
Arguments AwaitFetch {A} url init k.
Arguments AwaitJson {A} r k.

Fixpoint bind {A B : Type} (m : Async A) (f : A -> Async B) : Async B :=
  match m with
  | Resolve a => f a
  | Reject e => Reject e
  | AwaitFetch url init k => AwaitFetch url init (fun r => bind (k r) f)
  | AwaitJson r k => AwaitJson r (fun v => bind (k v) f)
  end.

Notation "x <- m ;; k" := (bind m (fun x => k))
  (at level 61, m at next level, right associativity).

(** [await fetch(url, init)] *)
Definition fetch (url : jsstring) (init : RequestInit) : Async Response :=
  AwaitFetch url init Resolve.

(** [await response.json()] *)
Definition json (r : Response) : Async value := AwaitJson r Resolve.

(** [throw e] *)
Definition throw {A : Type} (e : Error) : Async A := Reject e.

(** A synchronous expression that may throw, evaluated inside an async
    function. *)
Definition eval {A : Type} (r : Result A) : Async A :=
  match r with
  | inl e => Reject e
  | inr a => Resolve a
  end.

(** The request an async function issues first, if it issues one. *)
Definition request_of {A : Type} (p : Async A) : option (jsstring * RequestInit) :=
  match p with
  | AwaitFetch url init _ => Some (url, init)
  | _ => None
  end.

Definition request_url {A : Type} (p : Async A) : option jsstring :=
  option_map fst (request_of p).

Definition request_headers {A : Type} (p : Async A)
  : option (list (jsstring * jsstring)) :=
  option_map (fun ui => headers (snd ui)) (request_of p).

Definition request_method {A : Type} (p : Async A) : option jsstring :=
  option_map (fun ui => method (snd ui)) (request_of p).

(** The JSON document sent as the body of that request. *)
Definition request_body {A : Type} (p : Async A) : option value :=
  match request_of p with
  | Some (_, init) => body init
  | None => None
  end.

(** The text an async function sends as [contents[0].parts[0].text] of its
    request body. *)
Definition sends_text {A : Type} (call : Async A) (t : jsstring) : Prop :=
  exists doc,
    request_body call = Some doc
    /\ get_path doc [js "contents"; js "0"; js "parts"; js "0"; js "text"]
       = inr (VStr t).

Section Router.

(** The router is written over the runtime's [JSON.parse], which takes any
    value (it first converts its argument to a string).  The model of the
    built-in is [JSON_parse] below; what is proved of the router holds for
    any [JSON.parse]. *)
Variable JSON_parse : value -> Result value.

(** ** The adapters *)

Definition callOpenAI (params : LLMParams) : Async value :=
  let gptOptions :=
    {| method := js "POST";
       headers := [(js "Content-Type", js "application/json");
                   (js "Authorization", apiKey params)];
       body := None |} in
  let postData :=
    JSON_stringify (VObj [
      (js "model", VStr (modelName params));
      (js "messages", VArr (map Message_value (messages params)));
      (js "tools", optional VArr (tools params));
      (js "response_format", optional (fun v => v) (response_format params));
      (js "temperature", optional VNum (temperature params));
      (js "user", VStr (toString_base64 (Buffer_from (nullish (user params) (js "")))))
    ]) in
  response <- fetch (js "https://api.openai.com/v1/chat/completions")
                    (with_body gptOptions postData) ;;
  if negb (ok response) then
    throw (Err (js "OpenAI API error: " ++ N_to_js (status response)
                  ++ js " " ++ statusText response))
  else
    data <- json response ;;
    content <- eval (get_path data [js "choices"; js "0"; js "message"; js "content"]) ;;
    if not_null content then
      Resolve content
    else
      arguments <- eval (get_path data [js "choices"; js "0"; js "message";
                                        js "tool_calls"; js "0"; js "function";
                                        js "arguments"]) ;;
      if not_null arguments then
        parsed <- eval (JSON_parse arguments) ;;
        eval (get parsed (js "response"))
      else
        Resolve VNull.

Definition callGemini (params : LLMParams) : Async value :=
  let geminiOptions :=
    {| method := js "POST";
       headers := [(js "Content-Type", js "application/json")];
       body := None |} in
  let postData :=
    JSON_stringify (VObj [
      (js "contents", VArr [
        VObj [
          (js "parts", VArr [
            VObj [
              (js "text",
               VStr (join LF
                       (map (fun m => js "[" ++ role m ++ js "] " ++ content m)
                            (messages params))))
            ]
          ])
        ]
      ])
    ]) in
  response <- fetch (js "https://generativelanguage.googleapis.com/v1beta/models/"
                       ++ modelName params ++ js ":generateContent?key="
                       ++ apiKey params)
                    (with_body geminiOptions postData) ;;
  if negb (ok response) then
    throw (Err (js "Gemini API error: " ++ N_to_js (status response)
                  ++ js " " ++ statusText response))
  else
    data <- json response ;;
    eval (get_path data [js "candidates"; js "0"; js "content"; js "parts";
                         js "0"; js "text"]).

Definition callOpenRouter (params : LLMParams) : Async value :=
  let openRouterOptions :=
    {| method := js "POST";
       headers := [(js "Content-Type", js "application/json");
                   (js "Authorization", js "Bearer " ++ apiKey params)];
       body := None |} in
  let postData :=
    JSON_stringify (VObj [
      (js "model", VStr (modelName params));
      (js "messages", VArr (map Message_value (messages params)));
      (js "tools", optional VArr (tools params));
      (js "response_format", optional (fun v => v) (response_format params));
      (js "temperature", optional VNum (temperature params));
      (js "user", VStr (toString_base64 (Buffer_from (nullish (user params) (js "")))))
    ]) in
  response <- fetch (js "https://openrouter.ai/api/v1/chat/completions")
                    (with_body openRouterOptions postData) ;;
  if negb (ok response) then
    throw (Err (js "OpenRouter API error: " ++ N_to_js (status response)
                  ++ js " " ++ statusText response))
  else
    data <- json response ;;
    eval (get_path data [js "choices"; js "0"; js "message"; js "content"]).

(** ** Dispatch *)

Definition callLLM (params : LLMParams) : Async value :=
  if str_eqb (provider params) (js "openai") then callOpenAI params
  else if str_eqb (provider params) (js "gemini") then callGemini params
  else if str_eqb (provider params) (js "openrouter") then callOpenRouter params
  else throw (Err (js "Unsupported provider: " ++ provider params)).

(** The three adapters and the provider tag that selects each. *)
Inductive Adapter := OpenAI | Gemini | OpenRouter.

Definition tag (a : Adapter) : jsstring :=
  match a with
  | OpenAI => js "openai"
  | Gemini => js "gemini"
  | OpenRouter => js "openrouter"
  end.

Definition adapter (a : Adapter) : LLMParams -> Async value :=
  match a with
  | OpenAI => callOpenAI
  | Gemini => callGemini
  | OpenRouter => callOpenRouter
  end.

(** The provider's name as the adapter writes it in its error messages. *)
Definition display_name (a : Adapter) : jsstring :=
  match a with
  | OpenAI => js "OpenAI"
  | Gemini => js "Gemini"
  | OpenRouter => js "OpenRouter"
  end.

(** ** Running a program

    [fetch_handler] stands for the network: it settles each request with a
    response or rejects it.  [run] performs the awaited operations in
    order and returns them together with the outcome of the promise. *)

Inductive Event :=
| EvFetch (url : jsstring) (init : RequestInit)
| EvJson (r : Response).

Variable fetch_handler : jsstring -> RequestInit -> Result Response.

Fixpoint run {A : Type} (p : Async A) : list Event * Result A :=
  match p with
  | Resolve a => ([], inr a)
  | Reject e => ([], inl e)
  | AwaitFetch url init k =>
      match fetch_handler url init with
      | inl e => ([EvFetch url init], inl e)
      | inr r => let (trace, out) := run (k r) in (EvFetch url init :: trace, out)
      end
  | AwaitJson r k =>
      match JSON_parse (VStr (text r)) with
      | inl e => ([EvJson r], inl e)
      | inr v => let (trace, out) := run (k v) in (EvJson r :: trace, out)
      end
  end.

End Router.

(** ** The runtime's [JSON.parse]

    [JSON.parse(v)] converts [v] to a string and parses that text by the
    JSON grammar.  Numbers are read exactly (see [number]). *)

(** *** Numbers *)

Definition is_digit (c : Z) : bool := (48 <=? c) && (c <=? 57).

(** Leading decimal digits of a text, as digit values. *)
Fixpoint take_digits (s : jsstring) : list Z * jsstring :=
  match s with
  | [] => ([], [])
  | c :: r =>
      if is_digit c
      then let (ds, r') := take_digits r in ((c - 48) :: ds, r')
      else ([], s)
  end.

Definition parse_exponent (s : jsstring) : option (Z * jsstring) :=
  match s with
  | c :: r =>
      if (c =? 101) || (c =? 69) then
        let (sign, r1) :=
          match r with
          | c1 :: r' => if c1 =? 45 then (-1, r')
                        else if c1 =? 43 then (1, r') else (1, r)
          | [] => (1, r)
          end in
        match take_digits r1 with
        | ([], _) => None
        | (ds, r2) => Some (sign * Z.of_N (digits_to_N ds), r2)
        end
      else Some (0, s)
  | [] => Some (0, s)
  end.

Definition parse_fraction (s : jsstring) : option (list Z * jsstring) :=
  match s with
  | c :: r =>
      if c =? 46 then
        match take_digits r with
        | ([], _) => None
        | (ds, r1) => Some (ds, r1)
        end
      else Some ([], s)
  | [] => Some ([], s)
  end.

Definition parse_number (s : jsstring) : option (number * jsstring) :=
  let (neg, s1) :=
    match s with
    | c :: r => if c =? 45 then (true, r) else (false, s)
    | [] => (false, s)
    end in
  match s1 with
  | c :: r =>
      if is_digit c then
        let (ints, r1) := if c =? 48 then ([0], r) else take_digits s1 in
        match parse_fraction r1 with
        | Some (fracs, r2) =>
            match parse_exponent r2 with
            | Some (e, r3) =>
                Some (make_number neg (ints ++ fracs)
                        (e - Z.of_nat (List.length fracs)), r3)
            | None => None
            end
        | None => None
        end
      else None
  | [] => None
  end.

(** *** Strings *)

Definition hex_digit (c : Z) : option Z :=
  if (48 <=? c) && (c <=? 57) then Some (c - 48)
  else if (97 <=? c) && (c <=? 102) then Some (c - 87)
  else if (65 <=? c) && (c <=? 70) then Some (c - 55)
  else None.

Definition escape (c : Z) : option Z :=
  if c =? 34 then Some 34          (* quotation mark *)
  else if c =? 92 then Some 92     (* reverse solidus *)
  else if c =? 47 then Some 47     (* solidus *)
  else if c =? 98 then Some 8      (* b: backspace *)
  else if c =? 102 then Some 12    (* f: form feed *)
  else if c =? 110 then Some 10    (* n: line feed *)
  else if c =? 114 then Some 13    (* r: carriage return *)
  else if c =? 116 then Some 9     (* t: tab *)
  else None.

(** The rest of a string literal after its opening quote. *)
Fixpoint parse_string (s : jsstring) (acc : jsstring) : option (jsstring * jsstring) :=
  match s with
  | [] => None
  | c :: r =>
      if c =? 34 then Some (rev acc, r)
      else if c =? 92 then
        match r with
        | e :: r1 =>
            if e =? 117 then
              match r1 with
              | h1 :: h2 :: h3 :: h4 :: r2 =>
                  match hex_digit h1, hex_digit h2, hex_digit h3, hex_digit h4 with
                  | Some a, Some b, Some c', Some d =>
                      parse_string r2 (a * 4096 + b * 256 + c' * 16 + d :: acc)
                  | _, _, _, _ => None
                  end
              | _ => None
              end
            else
              match escape e with
              | Some u => parse_string r1 (u :: acc)
              | None => None
              end
        | [] => None
        end
      else if c <? 32 then None
      else parse_string r (c :: acc)
  end.

(** *** Values *)

Definition is_ws (c : Z) : bool :=
  (c =? 32) || (c =? 9) || (c =? 10) || (c =? 13).

Fixpoint skip_ws (s : jsstring) : jsstring :=
  match s with
  | c :: r => if is_ws c then skip_ws r else s
  | [] => []
  end.

(** [s] without its prefix [lit], when it has that prefix. *)
Fixpoint expect (lit s : jsstring) : option jsstring :=
  match lit, s with
  | [], _ => Some s
  | x :: lit', y :: s' => if x =? y then expect lit' s' else None
  | _ :: _, [] => None
  end.

(** Defining a property: a repeated key keeps its place and takes the
    later value. *)
Fixpoint obj_set (k : jsstring) (v : value) (props : list (jsstring * value))
  : list (jsstring * value) :=
  match props with
  | [] => [(k, v)]
  | (k', v') :: rest =>
      if str_eqb k k' then (k', v) :: rest else (k', v') :: obj_set k v rest
  end.

Fixpoint parse_value (fuel : nat) (s : jsstring) : option (value * jsstring) :=
  match fuel with
  | O => None
  | S f =>
      match skip_ws s with
      | [] => None
      | c :: r =>
          if c =? 123 then                                   (* { *)
            match skip_ws r with
            | c' :: r' =>
                if c' =? 125 then Some (VObj [], r') else parse_members f r []
            | [] => None
            end
          else if c =? 91 then                               (* [ *)
            match skip_ws r with
            | c' :: r' =>
                if c' =? 93 then Some (VArr [], r') else parse_elements f r []
            | [] => None
            end
          else if c =? 34 then
            match parse_string r [] with
            | Some (str, r') => Some (VStr str, r')
            | None => None
            end
          else if c =? 116 then option_map (pair (VBool true)) (expect (js "rue") r)
          else if c =? 102 then option_map (pair (VBool false)) (expect (js "alse") r)
          else if c =? 110 then option_map (pair VNull) (expect (js "ull") r)
          else
            match parse_number (c :: r) with
            | Some (n, r') => Some (VNum n, r')
            | None => None
            end
      end
  end
with parse_elements (fuel : nat) (s : jsstring) (acc : list value)
  : option (value * jsstring) :=
  match fuel with
  | O => None
  | S f =>
      match parse_value f s with
      | Some (v, r) =>
          match skip_ws r with
          | c :: r' =>
              if c =? 44 then parse_elements f r' (v :: acc)
              else if c =? 93 then Some (VArr (rev (v :: acc)), r')
              else None
          | [] => None
          end
      | None => None
      end
  end
with parse_members (fuel : nat) (s : jsstring) (acc : list (jsstring * value))
  : option (value * jsstring) :=
  match fuel with
  | O => None
  | S f =>
      match skip_ws s with
      | c :: r =>
          if c =? 34 then
            match parse_string r [] with
            | Some (k, r1) =>
                match skip_ws r1 with
                | c1 :: r2 =>
                    if c1 =? 58 then
                      match parse_value f r2 with
                      | Some (v, r3) =>
                          match skip_ws r3 with
                          | c3 :: r4 =>
                              if c3 =? 44 then parse_members f r4 (obj_set k v acc)
                              else if c3 =? 125 then Some (VObj (obj_set k v acc), r4)
                              else None
                          | [] => None
                          end
                      | None => None
                      end
                    else None
                | [] => None
                end
            | None => None
            end
          else None
      | [] => None
      end
  end.

(** Parsing a whole text: one value, surrounded by optional white space.
    Along a chain of nested calls the parser makes at most two calls per
    character it consumes, so twice the length of the text, plus two, is
    enough fuel. *)
Definition JSON_parse_text (s : jsstring) : Result value :=
  match parse_value (2 * List.length s + 2) s with
  | Some (v, r) =>
      match skip_ws r with
      | [] => inr v
      | _ => inl (SyntaxError s)
      end
  | None => inl (SyntaxError s)
  end.

(** *** [ToString] *)

Definition digits_to_js (ds : list Z) : jsstring := map (fun d => 48 + d) ds.

(** [Number::toString] for a decimal with digits [ds] (no trailing zero)
    whose decimal point stands after the first [n] digits. *)
Definition Number_toString (x : number) : jsstring :=
  let all := uint_digits (num_mant x) in
  let ds := rev (drop_zeros (rev all)) in
  if (num_mant x =? 0)%N then js "0"
  else
    let k := Z.of_nat (List.length ds) in
    let n := Z.of_nat (List.length all) + num_exp10 x in
    let sign := if num_neg x then js "-" else [] in
    sign ++
    (if (k <=? n) && (n <=? 21) then
       digits_to_js ds ++ repeat 48 (Z.to_nat (n - k))
     else if (0 <? n) && (n <=? 21) then
       digits_to_js (firstn (Z.to_nat n) ds) ++ js "."
         ++ digits_to_js (skipn (Z.to_nat n) ds)
     else if (-6 <? n) && (n <=? 0) then
       js "0." ++ repeat 48 (Z.to_nat (- n)) ++ digits_to_js ds
     else
       let e := n - 1 in
       digits_to_js (firstn 1 ds)
         ++ (if k =? 1 then [] else js "." ++ digits_to_js (skipn 1 ds))
         ++ js "e" ++ (if e <? 0 then js "-" else js "+")
         ++ N_to_js (Z.to_N (Z.abs e))).

Fixpoint ToString (v : value) : jsstring :=
  match v with
  | VUndefined => js "undefined"
  | VNull => js "null"
  | VBool true => js "true"
  | VBool false => js "false"
  | VNum x => Number_toString x
  | VStr s => s
  | VArr elems =>
      join (js ",")
        (map (fun e => match e with
                       | VUndefined | VNull => []
                       | _ => ToString e
                       end) elems)
  | VObj _ => js "[object Object]"
  end.

Definition JSON_parse (v : value) : Result value := JSON_parse_text (ToString v).

(** ** Sample requests and responses *)

Definition capital_question : Message :=
  {| role := js "user"; content := js "What is the capital of France?" |}.

Definition sample_params (tag : jsstring) : LLMParams :=
  {| provider := tag;
     modelName := js "gpt-4o-mini";
     apiKey := js "sk-test";
     messages := [capital_question];
     temperature := Some (Num false 7 (-1));
     user := Some (js "test-user-123");
     tools := None;
     response_format := None |}.

(** A quoted JSON string literal without escapes, and the text of some
    response bodies. *)
Definition quoted (s : string) : jsstring := [34] ++ js s ++ [34].









Definition ok_response (body_text : jsstring) : Response :=
  {| status := 200; statusText := js "OK"; text := body_text |}.

Definition unauthorized : Response :=
  {| status := 401; statusText := js "Unauthorized"; text := js "{}" |}.

(** A network that answers every request with the same response. *)
Definition always (r : Response) : jsstring -> RequestInit -> Result Response :=
  fun _ _ => inr r.



Definition no_choices_text : jsstring :=
  js "{" ++ quoted "choices" ++ js ":[]}".


(** * Properties *)

(** ** Strings *)

Lemma str_eqb_eq (a b : jsstring) : str_eqb a b = true <-> a = b.
Proof.
  revert b; induction a as [|x a IH]; intros [|y b]; simpl; split;
    try discriminate; try reflexivity.
  - intros H. apply andb_true_iff in H as [Hx Hab].
    apply Z.eqb_eq in Hx. apply IH in Hab. congruence.
  - intros H. injection H as -> ->.
    rewrite Z.eqb_refl. simpl. apply IH. reflexivity.
Qed.

Lemma str_eqb_neq (a b : jsstring) : a <> b -> str_eqb a b = false.
Proof.
  intros H. destruct (str_eqb a b) eqn:E; [|reflexivity].
  apply str_eqb_eq in E. contradiction.
Qed.

(** ** Dispatch *)

Section Dispatch.

Variable parse : value -> Result value.

Lemma callLLM_tag (a : Adapter) (p : LLMParams) :
  provider p = tag a -> callLLM parse p = adapter parse a p.
Proof.
  intros H. unfold callLLM. rewrite H. destruct a; reflexivity.
Qed.

(** Every adapter starts by issuing a request to its own endpoint. *)
Lemma adapter_request (a : Adapter) (p : LLMParams) :
  exists url init k, adapter parse a p = AwaitFetch url init k.
Proof. destruct a; simpl; eexists _, _, _; reflexivity. Qed.

Lemma adapters_distinct (a b : Adapter) (p : LLMParams) :
  a <> b -> adapter parse a p <> adapter parse b p.
Proof.
  intros Hab E.
  assert (U : request_url (adapter parse a p) = request_url (adapter parse b p))
    by (rewrite E; reflexivity).
  destruct a, b; try (apply Hab; reflexivity);
    vm_compute in U; discriminate U.
Qed.

(** C1: for a request whose provider tag is that of a supported adapter,
    [callLLM] is that adapter's call on the same request: it is not the
    call of either other adapter, and running it performs the effects and
    yields the outcome of the matching adapter, unchanged. *)
Theorem callLLM_routes_to_matching_adapter
    (handler : jsstring -> RequestInit -> Result Response)
    (a : Adapter) (p : LLMParams) :
  provider p = tag a ->
  callLLM parse p = adapter parse a p
  /\ (forall b, b <> a -> callLLM parse p <> adapter parse b p)
  /\ run parse handler (callLLM parse p) = run parse handler (adapter parse a p).
Proof.
  intros H. rewrite (callLLM_tag a p H). repeat split.
  intros b Hb. apply adapters_distinct. congruence.
Qed.

(** C3: for a request whose provider tag is none of the three supported
    tags, [callLLM] rejects at once with an error whose message is
    "Unsupported provider: " followed by the tag; it issues no request,
    performs no effect at all, and is no adapter's call. *)
Theorem callLLM_unsupported_provider
    (handler : jsstring -> RequestInit -> Result Response) (p : LLMParams) :
  (forall a, provider p <> tag a) ->
  callLLM parse p = Reject (Err (js "Unsupported provider: " ++ provider p))
  /\ request_of (callLLM parse p) = None
  /\ run parse handler (callLLM parse p)
     = ([], inl (Err (js "Unsupported provider: " ++ provider p)))
  /\ (forall a, callLLM parse p <> adapter parse a p).
Proof.
  intros H.
  assert (E : callLLM parse p
              = Reject (Err (js "Unsupported provider: " ++ provider p))).
  { unfold callLLM.
    pose proof (str_eqb_neq _ _ (H OpenAI)) as H1.
    pose proof (str_eqb_neq _ _ (H Gemini)) as H2.
    pose proof (str_eqb_neq _ _ (H OpenRouter)) as H3.
    cbn [tag] in H1, H2, H3. rewrite H1, H2, H3. reflexivity. }
  rewrite E. repeat split.
  intros a Ha. destruct (adapter_request a p) as (url & init & k & Hk).
  rewrite Hk in Ha. discriminate Ha.
Qed.

End Dispatch.

(** ** Running the adapters *)


Lemma not_ok_status (r : Response) :
  ~ (200 <= status r <= 299)%N -> ok r = false.
Proof.
  intros H. unfold ok.
  destruct (N.leb_spec 200 (status r)); [|reflexivity].
  destruct (N.leb_spec (status r) 299); [|reflexivity].
  exfalso. apply H. split; assumption.
Qed.

Section Runs.

Variable parse : value -> Result value.
Variable handler : jsstring -> RequestInit -> Result Response.

(** What the extraction of [callOpenAI] computes from a parsed body. *)
Lemma run_callOpenAI_ok (p : LLMParams) url init (r : Response) (data : value) :
  request_of (callOpenAI parse p) = Some (url, init) ->
  handler url init = inr r ->
  ok r = true ->
  parse (VStr (text r)) = inr data ->
  run parse handler (callOpenAI parse p)
  = ([EvFetch url init; EvJson r],
     match get_path data [js "choices"; js "0"; js "message"; js "content"] with
     | inl e => inl e
     | inr content =>
         if not_null content then inr content
         else
           match get_path data [js "choices"; js "0"; js "message";
                                js "tool_calls"; js "0"; js "function";
                                js "arguments"] with
           | inl e => inl e
           | inr arguments =>
               if not_null arguments then
                 match parse arguments with
                 | inl e => inl e
                 | inr parsed => get parsed (js "response")
                 end
               else inr VNull
           end
     end).
Proof.
  intros Hreq Hnet Hok Hdata.
  unfold callOpenAI in *.
  set (url0 := js "https://api.openai.com/v1/chat/completions") in *.
  set (init0 := with_body _ _) in *.
  cbn [request_of bind fetch] in Hreq.
  injection Hreq as Hurl Hinit. subst url init.
  cbn [run bind fetch]. rewrite Hnet. cbn [bind]. rewrite Hok.
  cbn [negb json bind run]. rewrite Hdata. cbn [bind].
  destruct (get_path data _) as [e|content]; [reflexivity|].
  cbn [eval bind]. destruct (not_null content); [reflexivity|].
  destruct (get_path data _) as [e|arguments]; [reflexivity|].
  cbn [eval bind]. destruct (not_null arguments); [|reflexivity].
  destruct (parse arguments) as [e|parsed]; [reflexivity|].
  cbn [eval bind]. destruct (get parsed _); reflexivity.
Qed.

(** A response with a status outside 200-299 to an adapter's request. *)
Lemma run_adapter_http_error
    (a : Adapter) (p : LLMParams) url init (r : Response) :
  request_of (adapter parse a p) = Some (url, init) ->
  handler url init = inr r ->
  ok r = false ->
  run parse handler (adapter parse a p)
  = ([EvFetch url init],
     inl (Err (display_name a ++ js " API error: " ++ N_to_js (status r)
                 ++ js " " ++ statusText r))).
Proof.
  intros Hreq Hnet Hstatus.
  destruct a; cbn [adapter] in *;
    [unfold callOpenAI in *|unfold callGemini in *|unfold callOpenRouter in *];
    set (init0 := with_body _ _) in *;
    match type of Hreq with
    | context [fetch ?u init0] => set (url0 := u) in *
    end;
    cbn [request_of bind fetch] in Hreq;
    injection Hreq as Hurl Hinit; subst url init;
    cbn [run bind fetch]; rewrite Hnet; cbn [bind]; rewrite Hstatus;
    reflexivity.
Qed.

Lemma adapter_has_request (a : Adapter) (p : LLMParams) :
  exists url init, request_of (adapter parse a p) = Some (url, init).
Proof.
  destruct (adapter_request parse a p) as (url & init & k & E).
  exists url, init. rewrite E. reflexivity.
Qed.

(** C4: whichever adapter is called, it issues a request, and when the
    response to that request has a status outside 200-299 the call rejects
    with an error whose message is the provider's name, " API error: ",
    the status in decimal, a space and the status text.  The only effect
    performed is the one request: the body is never read and no second
    request is made.  [callLLM] on a request for that adapter settles in
    the same way. *)
Theorem http_error_status_rejects (a : Adapter) (p : LLMParams) :
  exists url init,
    request_of (adapter parse a p) = Some (url, init)
    /\ forall r : Response,
         handler url init = inr r ->
         ~ (200 <= status r <= 299)%N ->
         let failure :=
           ([EvFetch url init],
            inl (Err (display_name a ++ js " API error: " ++ N_to_js (status r)
                        ++ js " " ++ statusText r))) in
         run parse handler (adapter parse a p) = failure
         /\ (provider p = tag a ->
             run parse handler (callLLM parse p) = failure).
Proof.
  destruct (adapter_has_request a p) as (url & init & Hreq).
  exists url, init. split; [exact Hreq|].
  intros r Hnet Hstatus failure.
  pose proof (run_adapter_http_error a p url init r Hreq Hnet
                (not_ok_status r Hstatus)) as E.
  split; [exact E|].
  intros Htag. rewrite (callLLM_tag parse a p Htag). exact E.
Qed.

Lemma ok_status (r : Response) :
  (200 <= status r <= 299)%N -> ok r = true.
Proof.
  intros [H1 H2]. unfold ok.
  apply N.leb_le in H1, H2. rewrite H1, H2. reflexivity.
Qed.




End Runs.

(** ** The requests the adapters build *)

Lemma lookup_stringify_members_skip
    (f : value -> value) (k k' : jsstring) (x : value) rest :
  str_eqb k k' = false ->
  lookup k (stringify_members f ((k', x) :: rest))
  = lookup k (stringify_members f rest).
Proof.
  intros H. cbn [stringify_members].
  destruct (f x); cbn [lookup]; rewrite ?H; reflexivity.
Qed.

Lemma join_map_transcript (ms : list Message) :
  join LF (map (fun m => js "[" ++ role m ++ js "] " ++ content m) ms)
  = transcript ms.
Proof.
  induction ms as [|m ms IH]; [reflexivity|].
  destruct ms as [|m' ms]; [reflexivity|].
  cbn [map join transcript] in *. rewrite IH. reflexivity.
Qed.

Lemma callGemini_body (p : LLMParams) :
  request_body (callGemini p)
  = Some (VObj [(js "contents",
                 VArr [VObj [(js "parts",
                              VArr [VObj [(js "text",
                                           VStr (transcript (messages p)))]])]])]).
Proof. rewrite <- join_map_transcript. reflexivity. Qed.

(** C5: the body [callGemini] sends is a document whose
    [contents[0].parts[0].text] is the transcript of the messages: one
    line [[role] content] per message, in order, joined by line feeds.  For
    the single message with role "user" and content "What is the capital
    of France?" that text is "[user] What is the capital of France?". *)
Theorem gemini_body_text_is_transcript (p : LLMParams) :
  (exists doc,
      request_body (callGemini p) = Some doc
      /\ get_path doc [js "contents"; js "0"; js "parts"; js "0"; js "text"]
         = inr (VStr (transcript (messages p))))
  /\ (messages p = [capital_question] ->
      transcript (messages p) = js "[user] What is the capital of France?").
Proof.
  split.
  - eexists. split; [apply callGemini_body|reflexivity].
  - intros ->. reflexivity.
Qed.

(** C6: the call [callGemini] makes does not depend on [temperature],
    [user], [tools] or [response_format]: replacing these four properties
    by any values leaves the whole call, and so its URL, method, headers
    and body, unchanged.  The body has the single member [contents] and
    the only header is [Content-Type]. *)
Theorem gemini_drops_optional_fields
    (p : LLMParams) (t : option number) (u : option jsstring)
    (tl : option (list value)) (rf : option value) :
  callGemini (with_options t u tl rf p) = callGemini p
  /\ request_of (callGemini (with_options t u tl rf p)) = request_of (callGemini p)
  /\ (exists c, request_body (callGemini p) = Some (VObj [(js "contents", c)]))
  /\ request_headers (callGemini p)
     = Some [(js "Content-Type", js "application/json")].
Proof.
  repeat split.
  eexists. apply callGemini_body.
Qed.

Section Envelopes.

Variable parse : value -> Result value.

(** The document both chat-completion adapters send. *)
Lemma callOpenAI_body (p : LLMParams) :
  request_body (callOpenAI parse p)
  = Some (JSON_stringify (VObj [
      (js "model", VStr (modelName p));
      (js "messages", VArr (map Message_value (messages p)));
      (js "tools", optional VArr (tools p));
      (js "response_format", optional (fun v => v) (response_format p));
      (js "temperature", optional VNum (temperature p));
      (js "user", VStr (toString_base64 (Buffer_from (nullish (user p) (js "")))))
    ])).
Proof. reflexivity. Qed.

Lemma callOpenRouter_body (p : LLMParams) :
  request_body (callOpenRouter p) = request_body (callOpenAI parse p).
Proof. reflexivity. Qed.

Lemma chat_body_user (p : LLMParams) :
  exists doc,
    request_body (callOpenAI parse p) = Some doc
    /\ get doc (js "user")
       = inr (VStr (toString_base64 (Buffer_from (nullish (user p) (js ""))))).
Proof.
  eexists. split; [apply callOpenAI_body|].
  cbn [JSON_stringify get].
  rewrite !lookup_stringify_members_skip by reflexivity.
  reflexivity.
Qed.

(** C7: for the same request, [callOpenRouter] sends the body
    [callOpenAI] sends, with the same method and the same [Content-Type]
    header.  The envelopes differ in the [Authorization] header alone:
    [callOpenAI] sends the API key as it is, [callOpenRouter] sends it
    after "Bearer ". *)
Theorem openrouter_envelope_matches_openai (p : LLMParams) :
  request_body (callOpenRouter p) = request_body (callOpenAI parse p)
  /\ request_method (callOpenRouter p) = request_method (callOpenAI parse p)
  /\ request_headers (callOpenAI parse p)
     = Some [(js "Content-Type", js "application/json");
             (js "Authorization", apiKey p)]
  /\ request_headers (callOpenRouter p)
     = Some [(js "Content-Type", js "application/json");
             (js "Authorization", js "Bearer " ++ apiKey p)].
Proof. repeat split. Qed.

(** C10: the body [callOpenAI] and [callOpenRouter] send always has a
    [user] member, the base64 text of [params.user ?? ""].  When [user] is
    absent that member is the empty string, and a request without [user]
    makes the same call as the request with [user] set to the empty
    string. *)
Theorem user_member_always_sent (p : LLMParams) :
  (exists doc,
      request_body (callOpenAI parse p) = Some doc
      /\ request_body (callOpenRouter p) = Some doc
      /\ get doc (js "user")
         = inr (VStr (toString_base64 (Buffer_from (nullish (user p) (js ""))))))
  /\ (exists doc,
         request_body (callOpenAI parse (with_user None p)) = Some doc
         /\ request_body (callOpenRouter (with_user None p)) = Some doc
         /\ get doc (js "user") = inr (VStr []))
  /\ callOpenAI parse (with_user None p)
     = callOpenAI parse (with_user (Some (js "")) p)
  /\ callOpenRouter (with_user None p)
     = callOpenRouter (with_user (Some (js "")) p).
Proof.
  split; [|split; [|split; reflexivity]].
  - destruct (chat_body_user p) as (doc & Hbody & Huser).
    exists doc. repeat split; assumption.
  - destruct (chat_body_user (with_user None p)) as (doc & Hbody & Huser).
    exists doc. repeat split; assumption.
Qed.

End Envelopes.

(** ** The encoding of [user] *)

(** The test vectors of RFC 4648 and some UTF-8 samples: "e" with acute
    accent, the euro sign, and U+1F600 (a surrogate pair). *)
Example base64_rfc4648 :
  map (fun s => toString_base64 (Buffer_from (js s)))
      ["f"; "fo"; "foo"; "foob"; "fooba"; "foobar"]%string
  = map js ["Zg=="; "Zm8="; "Zm9v"; "Zm9vYg=="; "Zm9vYmE="; "Zm9vYmFy"]%string.
Proof. vm_compute. reflexivity. Qed.

Example Buffer_from_samples :
  Buffer_from [233; 8364; 55357; 56832]
  = [195; 169; 226; 130; 172; 240; 159; 152; 128].
Proof. vm_compute. reflexivity. Qed.

Example Buffer_from_lone_surrogates :
  Buffer_from [56832; 97; 55357] = [239; 191; 189; 97; 239; 191; 189].
Proof. vm_compute. reflexivity. Qed.

Ltac arith := Z.div_mod_to_equations; lia.

(** Decides the integer comparisons of the goal, one at a time, dropping
    the branches that [tac] shows impossible. *)
Ltac decide_tests_by tac :=
  repeat match goal with
    | |- context [?a <? ?b] =>
        destruct (Z.ltb_spec a b); try (exfalso; tac)
    | |- context [?a <=? ?b] =>
        destruct (Z.leb_spec a b); try (exfalso; tac)
    | |- context [?a =? ?b] =>
        destruct (Z.eqb_spec a b); try (exfalso; tac)
    end.

Ltac decide_tests := decide_tests_by arith.

(** *** Base64 *)

Lemma b64_index_char (i : Z) : 0 <= i < 64 -> b64_index (b64_char i) = Some i.
Proof.
  intros H. unfold b64_char, b64_index.
  decide_tests; cbn [andb]; f_equal; lia.
Qed.

Lemma b64_char_not_pad (i : Z) : 0 <= i < 64 -> (b64_char i =? 61) = false.
Proof.
  intros H. apply Z.eqb_neq. unfold b64_char. decide_tests; lia.
Qed.

Lemma is_bytes_cons (a : Z) (bs : list Z) :
  is_bytes (a :: bs) = true -> 0 <= a < 256 /\ is_bytes bs = true.
Proof.
  cbn [is_bytes forallb]. unfold is_byte. intros H.
  apply andb_true_iff in H as [Ha Hbs].
  apply andb_true_iff in Ha as [Ha1 Ha2].
  apply Z.leb_le in Ha1. apply Z.ltb_lt in Ha2. auto.
Qed.

Lemma is_bytes_app (xs ys : list Z) :
  is_bytes (xs ++ ys) = is_bytes xs && is_bytes ys.
Proof. apply forallb_app. Qed.

Lemma base64_decode_group (a b c : Z) (rest : list Z) :
  0 <= a < 256 -> 0 <= b < 256 -> 0 <= c < 256 ->
  base64_decode (toString_base64 (a :: b :: c :: rest))
  = option_map (fun bs => a :: b :: c :: bs) (base64_decode (toString_base64 rest)).
Proof.
  intros Ha Hb Hc. cbn [toString_base64 base64_decode].
  set (n := a * 65536 + b * 256 + c).
  assert (Hn : 0 <= n < 16777216) by (subst n; lia).
  rewrite !b64_index_char by arith.
  rewrite !b64_char_not_pad by arith.
  cbn [andb].
  replace (n / 262144 * 262144 + n / 4096 mod 64 * 4096 + n / 64 mod 64 * 64 + n mod 64) with n by arith.
  replace (n / 65536) with a by (subst n; arith).
  replace ((n / 256) mod 256) with b by (subst n; arith).
  replace (n mod 256) with c by (subst n; arith).
  reflexivity.
Qed.


Lemma base64_decode_encode_bounded (n : nat) :
  forall bs, (List.length bs <= n)%nat -> is_bytes bs = true ->
    base64_decode (toString_base64 bs) = Some bs.
Proof.
  induction n as [|n IH]; intros bs Hlen Hbytes.
  - destruct bs; [reflexivity|simpl in Hlen; lia].
  - destruct bs as [|a [|b [|c rest]]]; [reflexivity| | |].
    + apply is_bytes_cons in Hbytes as [Ha _].
      cbn [toString_base64 base64_decode].
      rewrite !b64_index_char by arith.
      rewrite !Z.eqb_refl. cbn [andb]. do 2 f_equal. arith.
    + apply is_bytes_cons in Hbytes as [Ha Hbytes].
      apply is_bytes_cons in Hbytes as [Hb _].
      cbn [toString_base64 base64_decode].
      rewrite !b64_index_char by arith.
      rewrite b64_char_not_pad by arith.
      rewrite Z.eqb_refl. cbn [andb].
      f_equal. f_equal; [arith|f_equal; arith].
    + apply is_bytes_cons in Hbytes as [Ha Hbytes].
      apply is_bytes_cons in Hbytes as [Hb Hbytes].
      apply is_bytes_cons in Hbytes as [Hc Hbytes].
      rewrite base64_decode_group by assumption.
      rewrite IH; [reflexivity| |assumption].
      cbn [List.length] in Hlen. lia.
Qed.

Lemma base64_decode_encode (bs : list Z) :
  is_bytes bs = true -> base64_decode (toString_base64 bs) = Some bs.
Proof. apply (base64_decode_encode_bounded (List.length bs)). lia. Qed.

(** *** UTF-8 and UTF-16 *)

Lemma utf8_bytes_are_bytes (cp : Z) :
  0 <= cp < 1114112 -> is_bytes (utf8_bytes cp) = true.
Proof.
  intros H. unfold utf8_bytes, is_bytes, is_byte.
  decide_tests; cbn [forallb andb]; decide_tests; reflexivity.
Qed.

Lemma utf8_decode_bytes (cp : Z) (tl : list Z) :
  is_scalar cp = true ->
  utf8_decode (utf8_bytes cp ++ tl)
  = option_map (app (utf16_units cp)) (utf8_decode tl).
Proof.
  unfold is_scalar. intros H.
  assert (Hcp : 0 <= cp < 55296 \/ 57344 <= cp < 1114112).
  { apply orb_true_iff in H as [H|H]; apply andb_true_iff in H as [H1 H2];
      [apply Z.leb_le in H1|apply Z.leb_le in H1]; apply Z.ltb_lt in H2; lia. }
  clear H. unfold utf8_bytes.
  destruct (Z.ltb_spec cp 128); [|destruct (Z.ltb_spec cp 2048);
                                   [|destruct (Z.ltb_spec cp 65536)]].
  - cbn [app utf8_decode]. decide_tests_by lia. cbn [andb].
    unfold utf16_units. decide_tests_by lia.
    destruct (utf8_decode tl); reflexivity.
  - cbn [app utf8_decode]. unfold is_continuation, is_scalar.
    replace ((192 + cp / 64 - 192) * 64 + (128 + cp mod 64 - 128)) with cp by arith.
    assert (0 <= cp / 64 < 32 /\ 0 <= cp mod 64 < 64) as [Ha Hb] by arith.
    generalize dependent (cp / 64). generalize dependent (cp mod 64).
    intros b Hb a Ha. decide_tests_by lia. reflexivity.
  - cbn [app utf8_decode]. unfold is_continuation, is_scalar.
    replace ((224 + cp / 4096 - 224) * 4096 + (128 + (cp / 64) mod 64 - 128) * 64
             + (128 + cp mod 64 - 128)) with cp by arith.
    assert (0 <= cp / 4096 < 16 /\ 0 <= (cp / 64) mod 64 < 64
            /\ 0 <= cp mod 64 < 64) as (Ha & Hb & Hc) by arith.
    generalize dependent (cp / 4096). generalize dependent ((cp / 64) mod 64).
    generalize dependent (cp mod 64).
    intros c Hc b Hb a Ha. decide_tests_by lia; reflexivity.
  - cbn [app utf8_decode]. unfold is_continuation, is_scalar.
    replace ((240 + cp / 262144 - 240) * 262144
             + (128 + (cp / 4096) mod 64 - 128) * 4096
             + (128 + (cp / 64) mod 64 - 128) * 64
             + (128 + cp mod 64 - 128)) with cp by arith.
    assert (0 <= cp / 262144 < 8 /\ 0 <= (cp / 4096) mod 64 < 64
            /\ 0 <= (cp / 64) mod 64 < 64 /\ 0 <= cp mod 64 < 64)
      as (Ha & Hb & Hc & Hd) by arith.
    generalize dependent (cp / 262144). generalize dependent ((cp / 4096) mod 64).
    generalize dependent ((cp / 64) mod 64). generalize dependent (cp mod 64).
    intros d Hd c Hc b Hb a Ha. decide_tests_by lia; reflexivity.
Qed.

Lemma in_range (lo hi c : Z) :
  (lo <=? c) && (c <=? hi) = true -> lo <= c <= hi.
Proof.
  intros H. apply andb_true_iff in H as [H1 H2].
  apply Z.leb_le in H1, H2. lia.
Qed.

Lemma out_of_range (lo hi c : Z) :
  (lo <=? c) && (c <=? hi) = false -> c < lo \/ hi < c.
Proof.
  intros H. apply andb_false_iff in H as [H|H]; apply Z.leb_gt in H; lia.
Qed.

Lemma is_code_unit_range (c : Z) : is_code_unit c = true -> 0 <= c < 65536.
Proof.
  unfold is_code_unit. intros H. apply andb_true_iff in H as [H1 H2].
  apply Z.leb_le in H1. apply Z.ltb_lt in H2. lia.
Qed.

Lemma is_scalar_intro (cp : Z) :
  0 <= cp < 55296 \/ 57344 <= cp < 1114112 -> is_scalar cp = true.
Proof. intros H. unfold is_scalar. decide_tests; reflexivity. Qed.

Lemma utf16_units_bmp (c : Z) : c < 65536 -> utf16_units c = [c].
Proof. intros H. unfold utf16_units. decide_tests. reflexivity. Qed.

Lemma utf16_units_pair (c d : Z) :
  55296 <= c <= 56319 -> 56320 <= d <= 57343 ->
  utf16_units (65536 + (c - 55296) * 1024 + (d - 56320)) = [c; d].
Proof.
  intros Hc Hd. unfold utf16_units. decide_tests.
  f_equal; [arith|f_equal; arith].
Qed.

(** On a well-formed string [Buffer.from] produces bytes, and strict
    UTF-8 decoding gives the string back. *)
Lemma Buffer_from_decodes_bounded (n : nat) :
  forall s, (List.length s <= n)%nat -> isWellFormed s = true ->
    is_bytes (Buffer_from s) = true /\ utf8_decode (Buffer_from s) = Some s.
Proof.
  induction n as [|n IH]; intros s Hlen Hwf.
  - destruct s; [split; reflexivity|simpl in Hlen; lia].
  - destruct s as [|c rest]; [split; reflexivity|].
    cbn [isWellFormed Buffer_from] in *. cbn [List.length] in Hlen.
    destruct (is_high_surrogate c) eqn:Hhigh.
    + destruct rest as [|d rest']; [discriminate|].
      apply andb_true_iff in Hwf as [Hlow Hwf]. rewrite Hlow.
      apply in_range in Hhigh, Hlow. cbn [List.length] in Hlen.
      destruct (IH rest' ltac:(lia) Hwf) as [Hb Hd].
      rewrite is_bytes_app, utf8_bytes_are_bytes, Hb by lia.
      rewrite utf8_decode_bytes by (apply is_scalar_intro; lia).
      rewrite Hd, utf16_units_pair by assumption.
      split; reflexivity.
    + destruct (is_low_surrogate c) eqn:Hlow; [discriminate|].
      apply andb_true_iff in Hwf as [Hunit Hwf].
      apply out_of_range in Hhigh, Hlow. apply is_code_unit_range in Hunit.
      destruct (IH rest ltac:(lia) Hwf) as [Hb Hd].
      rewrite is_bytes_app, utf8_bytes_are_bytes, Hb by lia.
      rewrite utf8_decode_bytes by (apply is_scalar_intro; lia).
      rewrite Hd, utf16_units_bmp by lia.
      split; reflexivity.
Qed.

Lemma Buffer_from_decodes (s : jsstring) :
  isWellFormed s = true ->
  is_bytes (Buffer_from s) = true /\ utf8_decode (Buffer_from s) = Some s.
Proof. apply (Buffer_from_decodes_bounded (List.length s)). lia. Qed.

Lemma decode_user_encode (s : jsstring) :
  isWellFormed s = true ->
  decode_user (toString_base64 (Buffer_from s)) = Some s.
Proof.
  intros H. destruct (Buffer_from_decodes s H) as [Hb Hd].
  unfold decode_user. rewrite base64_decode_encode by assumption. exact Hd.
Qed.

(** *** The [user] member *)

Section UserField.

Variable parse : value -> Result value.


End UserField.


(** ** The theorems at concrete requests and responses *)

Lemma callLLM_routes_gemini :
  provider (sample_params (js "gemini")) = tag Gemini
  /\ callLLM JSON_parse (sample_params (js "gemini"))
     = callGemini (sample_params (js "gemini")).
Proof.
  split; [reflexivity|].
  apply (callLLM_routes_to_matching_adapter JSON_parse (always unauthorized)
           Gemini (sample_params (js "gemini"))).
  reflexivity.
Defined.

Lemma callLLM_unsupported_anthropic :
  run JSON_parse (always unauthorized)
    (callLLM JSON_parse (sample_params (js "anthropic")))
  = ([], inl (Err (js "Unsupported provider: anthropic"))).
Proof.
  apply (callLLM_unsupported_provider JSON_parse (always unauthorized)
           (sample_params (js "anthropic"))).
  intros a. destruct a; vm_compute; discriminate.
Defined.

Lemma http_error_401 :
  (exists url init,
      request_of (callOpenAI JSON_parse (sample_params (js "openai")))
        = Some (url, init)
      /\ run JSON_parse (always unauthorized)
           (callLLM JSON_parse (sample_params (js "openai")))
         = ([EvFetch url init],
            inl (Err (js "OpenAI API error: 401 Unauthorized"))))
  /\ (exists url init,
         request_of (callGemini (sample_params (js "gemini"))) = Some (url, init)
         /\ run JSON_parse (always unauthorized)
              (callLLM JSON_parse (sample_params (js "gemini")))
            = ([EvFetch url init],
               inl (Err (js "Gemini API error: 401 Unauthorized"))))
  /\ run JSON_parse (always unauthorized)
       (callLLM JSON_parse (sample_params (js "openrouter")))
     = ([EvFetch (js "https://openrouter.ai/api/v1/chat/completions")
           (with_body
              {| method := js "POST";
                 headers := [(js "Content-Type", js "application/json");
                             (js "Authorization", js "Bearer sk-test")];
                 body := None |}
              (VObj [(js "model", VStr (js "gpt-4o-mini"));
                     (js "messages",
                      VArr [VObj [(js "role", VStr (js "user"));
                                  (js "content",
                                   VStr (js "What is the capital of France?"))]]);
                     (js "temperature", VNum (Num false 7 (-1)));
                     (js "user", VStr (js "dGVzdC11c2VyLTEyMw=="))]))],
        inl (Err (js "OpenRouter API error: 401 Unauthorized"))).
Proof.
  split; [|split].
  - destruct (http_error_status_rejects JSON_parse (always unauthorized)
                OpenAI (sample_params (js "openai")))
      as (url & init & Hreq & H).
    exists url, init. split; [exact Hreq|].
    apply (H unauthorized); [reflexivity|cbn [status unauthorized]; lia
                            |reflexivity].
  - destruct (http_error_status_rejects JSON_parse (always unauthorized)
                Gemini (sample_params (js "gemini")))
      as (url & init & Hreq & H).
    exists url, init. split; [exact Hreq|].
    apply (H unauthorized); [reflexivity|cbn [status unauthorized]; lia
                            |reflexivity].
  - destruct (http_error_status_rejects JSON_parse (always unauthorized)
                OpenRouter (sample_params (js "openrouter")))
      as (url & init & Hreq & H).
    cbn [adapter] in Hreq. vm_compute in Hreq.
    injection Hreq as Hurl Hinit.
    destruct (H unauthorized eq_refl ltac:(cbn [status unauthorized]; lia))
      as [_ E].
    rewrite (E eq_refl), <- Hurl, <- Hinit.
    vm_compute. reflexivity.
Defined.



Lemma gemini_capital_question_text :
  messages (sample_params (js "gemini")) = [capital_question]
  /\ transcript (messages (sample_params (js "gemini")))
     = js "[user] What is the capital of France?".
Proof.
  split; [reflexivity|].
  apply (gemini_body_text_is_transcript (sample_params (js "gemini"))).
  reflexivity.
Defined.


(** * Further properties of the adapters *)

(** ** Settling on the paths the claims leave out *)

Section Settling.

Variable parse : value -> Result value.
Variable handler : jsstring -> RequestInit -> Result Response.

Lemma run_eval {A : Type} (r : Result A) : run parse handler (eval r) = ([], r).
Proof. destruct r; reflexivity. Qed.

(** Names the request of an unfolded adapter and steps [run] to the
    network's answer. *)
Ltac to_network Hreq url init :=
  set (init0 := with_body _ _) in *;
  match type of Hreq with
  | context [fetch ?u init0] => set (url0 := u) in *
  end;
  cbn [request_of bind fetch] in Hreq;
  injection Hreq as Hurl Hinit; subst url init;
  cbn [run bind fetch].


Lemma run_callOpenRouter_ok (p : LLMParams) url init (r : Response) (data : value) :
  request_of (callOpenRouter p) = Some (url, init) ->
  handler url init = inr r ->
  ok r = true ->
  parse (VStr (text r)) = inr data ->
  run parse handler (callOpenRouter p)
  = ([EvFetch url init; EvJson r],
     get_path data [js "choices"; js "0"; js "message"; js "content"]).
Proof.
  intros Hreq Hnet Hok Hdata. unfold callOpenRouter in *.
  to_network Hreq url init. rewrite Hnet. cbn [bind]. rewrite Hok.
  cbn [negb json bind run]. rewrite Hdata. cbn [bind].
  rewrite run_eval. reflexivity.
Qed.



(** X3: each chat-completion adapter issues a request, and on a
    successful response to it without a first choice the adapter rejects
    with a [TypeError]: the read of index 0 throws when [choices] is
    absent, the read of [message] throws when [choices] is empty. *)
Theorem chat_adapters_need_a_choice (a : Adapter) (p : LLMParams) :
  a <> Gemini ->
  exists url init,
    request_of (adapter parse a p) = Some (url, init)
    /\ forall (r : Response) (data : value),
         handler url init = inr r ->
         (200 <= status r <= 299)%N ->
         parse (VStr (text r)) = inr data ->
         let result := snd (run parse handler (adapter parse a p)) in
         (get data (js "choices") = inr VUndefined ->
          result = inl (TypeError_read VUndefined (js "0")))
         /\ (get data (js "choices") = inr (VArr []) ->
             result = inl (TypeError_read VUndefined (js "message"))).
Proof.
  intros Ha.
  destruct (adapter_has_request parse a p) as (url & init & Hreq).
  exists url, init. split; [exact Hreq|].
  intros r data Hnet Hstatus Hdata result. subst result.
  destruct a; [| contradiction Ha; reflexivity |]; cbn [adapter] in *.
  - rewrite (run_callOpenAI_ok parse handler p url init r data Hreq Hnet
               (ok_status r Hstatus) Hdata).
    cbn [snd get_path]. split; intros H; rewrite H; reflexivity.
  - rewrite (run_callOpenRouter_ok p url init r data Hreq Hnet
               (ok_status r Hstatus) Hdata).
    cbn [snd get_path]. split; intros H; rewrite H; reflexivity.
Qed.


(** X5: every adapter issues a request, and when the response to it has
    a status in 200-299 and a body that [JSON.parse] rejects, the adapter
    rejects with that error after the request and the one read of the
    body.  [callLLM] on a request for that adapter settles in the same
    way. *)
Theorem unparseable_body_rejects (a : Adapter) (p : LLMParams) :
  exists url init,
    request_of (adapter parse a p) = Some (url, init)
    /\ forall (r : Response) (e : Error),
         handler url init = inr r ->
         (200 <= status r <= 299)%N ->
         parse (VStr (text r)) = inl e ->
         run parse handler (adapter parse a p)
         = ([EvFetch url init; EvJson r], inl e)
         /\ (provider p = tag a ->
             run parse handler (callLLM parse p)
             = ([EvFetch url init; EvJson r], inl e)).
Proof.
  destruct (adapter_has_request parse a p) as (url & init & Hreq).
  exists url, init. split; [exact Hreq|].
  intros r e Hnet Hstatus Hbody. apply ok_status in Hstatus.
  assert (E : run parse handler (adapter parse a p)
              = ([EvFetch url init; EvJson r], inl e)).
  { destruct a; cbn [adapter] in *;
      [unfold callOpenAI in *|unfold callGemini in *|unfold callOpenRouter in *];
      to_network Hreq url init; rewrite Hnet; cbn [bind]; rewrite Hstatus;
      cbn [negb json bind run]; rewrite Hbody; reflexivity. }
  split; [exact E|].
  intros Htag. rewrite (callLLM_tag parse a p Htag). exact E.
Qed.

Lemma run_bind_eval {A B : Type} (r : Result A) (k : A -> Async B) :
  run parse handler (bind (eval r) k)
  = match r with
    | inl e => ([], inl e)
    | inr a => run parse handler (k a)
    end.
Proof. destruct r; reflexivity. Qed.

(** After the body is parsed no adapter awaits anything more. *)
Ltac settle_silently :=
  repeat first
    [ rewrite run_eval
    | rewrite run_bind_eval
    | match goal with
      | |- context [match ?r with inl _ => _ | inr _ => _ end] => destruct r
      | |- context [if ?b then _ else _] => destruct b
      end ];
  cbn [run fst].

Lemma adapter_trace_shape (a : Adapter) (p : LLMParams) :
  exists url init,
    request_of (adapter parse a p) = Some (url, init)
    /\ (fst (run parse handler (adapter parse a p)) = [EvFetch url init]
        \/ exists r,
             handler url init = inr r /\ ok r = true
             /\ fst (run parse handler (adapter parse a p))
                = [EvFetch url init; EvJson r]).
Proof.
  destruct a; cbn [adapter];
    [unfold callOpenAI|unfold callGemini|unfold callOpenRouter];
    set (init0 := with_body _ _);
    match goal with
    | |- context [fetch ?u init0] => set (url0 := u)
    end;
    exists url0, init0; (split; [reflexivity|]);
    cbn [run bind fetch];
    (destruct (handler url0 init0) as [e|r] eqn:Hnet; [left; reflexivity|]);
    cbn [bind]; (destruct (ok r) eqn:Hok; cbn [negb]; [|left; reflexivity]);
    right; exists r; (split; [reflexivity|]); (split; [exact Hok|]);
    cbn [json bind run]; (destruct (parse (VStr (text r))) as [e|data];
                          [reflexivity|]); cbn [bind].
  - destruct (run parse handler _) as [trace out] eqn:E.
    assert (Ht : trace = []).
    { change trace with (fst (trace, out)). rewrite <- E.
      settle_silently; reflexivity. }
    rewrite Ht. reflexivity.
  - rewrite run_eval. reflexivity.
  - rewrite run_eval. reflexivity.
Qed.

(** X6: whatever the network answers, [callLLM] awaits at most one request
    and at most one read of a body, in that order.  It awaits nothing
    exactly when the provider tag is unsupported; otherwise its first
    effect is the request of the adapter the tag selects, and a body is
    read only from the response to that request and only when its status
    is in 200-299. *)
Theorem callLLM_awaits_at_most_one_request (p : LLMParams) :
  let trace := fst (run parse handler (callLLM parse p)) in
  (trace = [] /\ forall a, provider p <> tag a)
  \/ (exists a url init,
         provider p = tag a
         /\ request_of (adapter parse a p) = Some (url, init)
         /\ (trace = [EvFetch url init]
             \/ exists r,
                  handler url init = inr r /\ ok r = true
                  /\ trace = [EvFetch url init; EvJson r])).
Proof.
  intros trace.
  assert (Supported : forall a, provider p = tag a ->
            exists a url init,
              provider p = tag a
              /\ request_of (adapter parse a p) = Some (url, init)
              /\ (trace = [EvFetch url init]
                  \/ exists r,
                       handler url init = inr r /\ ok r = true
                       /\ trace = [EvFetch url init; EvJson r])).
  { intros a Ha. subst trace. rewrite (callLLM_tag parse a p Ha).
    destruct (adapter_trace_shape a p) as (url & init & Hreq & Hshape).
    exists a, url, init. auto. }
  destruct (str_eqb (provider p) (js "openai")) eqn:E1;
    [right; apply (Supported OpenAI), str_eqb_eq, E1|].
  destruct (str_eqb (provider p) (js "gemini")) eqn:E2;
    [right; apply (Supported Gemini), str_eqb_eq, E2|].
  destruct (str_eqb (provider p) (js "openrouter")) eqn:E3;
    [right; apply (Supported OpenRouter), str_eqb_eq, E3|].
  left. split.
  - subst trace. unfold callLLM. rewrite E1, E2, E3. reflexivity.
  - intros a Ha. apply str_eqb_eq in Ha. destruct a; cbn [tag] in Ha; congruence.
Qed.


End Settling.

(** ** What the chat-completion body holds *)




Section ChatBody.

Variable parse : value -> Result value.

(** The number written for [x] is the number [JSON.parse] reads back from
    the text of [x]: -0, 0.70, 1200, 12.5e-3 and 10e20. *)
Example stringify_number_samples :
  let xs := [Num true 0 0; Num false 70 (-2); Num false 1200 0;
             Num false 125 (-4); Num true 10 20] in
  map stringify_number xs
  = [Num false 0 0; Num false 7 (-1); Num false 12 2;
     Num false 125 (-4); Num true 1 21]
  /\ map (fun x => JSON_parse (VNum x)) xs
     = map (fun x => inr (VNum (stringify_number x))) xs.
Proof. split; vm_compute; reflexivity. Qed.



End ChatBody.

(** ** The transcript [callGemini] sends *)

Lemma callGemini_sends (p : LLMParams) :
  sends_text (callGemini p)
    (join LF (map (fun m => js "[" ++ role m ++ js "] " ++ content m)
                  (messages p))).
Proof. eexists. split; reflexivity. Qed.

Lemma sends_text_unique {A : Type} (call : Async A) (t t' : jsstring) :
  sends_text call t -> sends_text call t' -> t = t'.
Proof.
  intros (doc & Hb & Ht) (doc' & Hb' & Ht').
  rewrite Hb in Hb'. injection Hb' as <-. rewrite Ht in Ht'.
  injection Ht' as ->. reflexivity.
Qed.

Lemma join_app (sep : jsstring) (xs ys : list jsstring) :
  xs <> [] -> ys <> [] ->
  join sep (xs ++ ys) = join sep xs ++ sep ++ join sep ys.
Proof.
  intros Hx Hy. induction xs as [|x xs IH]; [contradiction Hx; reflexivity|].
  destruct xs as [|x' xs].
  - destruct ys; [contradiction Hy; reflexivity|]. reflexivity.
  - change (join sep ((x :: x' :: xs) ++ ys))
      with (x ++ sep ++ join sep ((x' :: xs) ++ ys)).
    rewrite IH by discriminate.
    change (join sep (x :: x' :: xs)) with (x ++ sep ++ join sep (x' :: xs)).
    rewrite <- !app_assoc. reflexivity.
Qed.

(** X9: the text [callGemini] sends is empty when there are no messages
    (the request is sent all the same), and the text for two non-empty
    runs of messages put end to end is the text of the first, a line feed,
    and the text of the second. *)
Theorem gemini_text_composes (p1 p2 p : LLMParams) (t1 t2 : jsstring) :
  (messages p = [] -> sends_text (callGemini p) [])
  /\ (messages p1 <> [] -> messages p2 <> [] ->
      messages p = messages p1 ++ messages p2 ->
      sends_text (callGemini p1) t1 ->
      sends_text (callGemini p2) t2 ->
      sends_text (callGemini p) (t1 ++ LF ++ t2)).
Proof.
  split.
  - intros H. pose proof (callGemini_sends p) as S. rewrite H in S. exact S.
  - intros H1 H2 H S1 S2.
    rewrite (sends_text_unique _ _ _ S1 (callGemini_sends p1)).
    rewrite (sends_text_unique _ _ _ S2 (callGemini_sends p2)).
    pose proof (callGemini_sends p) as S.
    rewrite H, map_app, join_app in S; [exact S| |].
    + destruct (messages p1); [contradiction H1; reflexivity|discriminate].
    + destruct (messages p2); [contradiction H2; reflexivity|discriminate].
Qed.

(** X10: the transcript does not delimit messages.  Two consecutive
    messages and the single message whose content is the first content, a
    line feed and the second message's line make [callGemini] issue the
    same call: same URL, headers and body. *)
Theorem gemini_message_boundary_is_a_line_feed
    (p : LLMParams) (before : list Message) (m1 m2 : Message)
    (after : list Message) :
  callGemini (with_messages (before ++ m1 :: m2 :: after) p)
  = callGemini (with_messages (before ++ merged m1 m2 :: after) p).
Proof.
  assert (E : forall ms,
             join LF (map (fun m => js "[" ++ role m ++ js "] " ++ content m)
                          (ms ++ m1 :: m2 :: after))
             = join LF (map (fun m => js "[" ++ role m ++ js "] " ++ content m)
                            (ms ++ merged m1 m2 :: after))).
  { assert (E0 : join LF (map (fun m => js "[" ++ role m ++ js "] " ++ content m)
                              (m1 :: m2 :: after))
                 = join LF (map (fun m => js "[" ++ role m ++ js "] " ++ content m)
                                (merged m1 m2 :: after))).
    { destruct after as [|m3 after]; cbn [map join merged role content];
        rewrite <- !app_assoc; reflexivity. }
    intros ms. destruct ms as [|m ms]; [exact E0|].
    rewrite !map_app, !join_app by discriminate. rewrite E0. reflexivity. }
  unfold callGemini. cbn [messages with_messages modelName apiKey].
  rewrite E. reflexivity.
Qed.

(** ** The shape of the [user] member *)

Lemma b64_char_symbol (i : Z) : 0 <= i < 64 -> is_b64_symbol (b64_char i) = true.
Proof.
  intros H. unfold b64_char.
  destruct (Z.ltb_spec i 26); [|destruct (Z.ltb_spec i 52);
    [|destruct (Z.ltb_spec i 62); [|destruct (Z.eqb_spec i 62)]]];
    unfold is_b64_symbol; decide_tests_by lia; reflexivity.
Qed.

Lemma toString_base64_shape_bounded (n : nat) :
  forall bs, (List.length bs <= n)%nat -> is_bytes bs = true ->
    forallb is_b64_symbol (toString_base64 bs) = true
    /\ Z.of_nat (List.length (toString_base64 bs))
       = 4 * ((Z.of_nat (List.length bs) + 2) / 3).
Proof.
  induction n as [|n IH]; intros bs Hlen Hbytes.
  - destruct bs; [split; reflexivity|simpl in Hlen; lia].
  - destruct bs as [|a [|b [|c rest]]]; [split; reflexivity| | |].
    + apply is_bytes_cons in Hbytes as [Ha _].
      cbn [toString_base64 forallb].
      rewrite !b64_char_symbol by arith. split; reflexivity.
    + apply is_bytes_cons in Hbytes as [Ha Hbytes].
      apply is_bytes_cons in Hbytes as [Hb _].
      cbn [toString_base64 forallb].
      rewrite !b64_char_symbol by arith. split; reflexivity.
    + apply is_bytes_cons in Hbytes as [Ha Hbytes].
      apply is_bytes_cons in Hbytes as [Hb Hbytes].
      apply is_bytes_cons in Hbytes as [Hc Hbytes].
      cbn [List.length] in Hlen.
      destruct (IH rest ltac:(lia) Hbytes) as [Hsym Hlength].
      cbn [toString_base64 forallb].
      rewrite !b64_char_symbol by arith. rewrite Hsym. split; [reflexivity|].
      cbn [List.length]. rewrite !Nat2Z.inj_succ, Hlength. arith.
Qed.

Lemma utf8_bytes_length (cp : Z) : (List.length (utf8_bytes cp) <= 4)%nat.
Proof. unfold utf8_bytes. decide_tests_by lia; simpl; lia. Qed.

Lemma utf8_bytes_length_bmp (cp : Z) :
  cp < 65536 -> (List.length (utf8_bytes cp) <= 3)%nat.
Proof. intros H. unfold utf8_bytes. decide_tests_by lia; simpl; lia. Qed.

(** [Buffer.from] gives bytes for every string, well-formed or not, and at
    most three for each code unit. *)
Lemma Buffer_from_bytes_bounded (n : nat) :
  forall s, (List.length s <= n)%nat -> is_jsstring s = true ->
    is_bytes (Buffer_from s) = true
    /\ (List.length (Buffer_from s) <= 3 * List.length s)%nat.
Proof.
  induction n as [|n IH]; intros s Hlen Hs.
  - destruct s; [split; [reflexivity|simpl; lia]|simpl in Hlen; lia].
  - destruct s as [|c rest]; [split; [reflexivity|simpl; lia]|].
    cbn [is_jsstring forallb] in Hs. apply andb_true_iff in Hs as [Hc Hrest].
    apply is_code_unit_range in Hc.
    cbn [Buffer_from]. cbn [List.length] in Hlen.
    destruct (IH rest ltac:(lia) Hrest) as [Hb Hl].
    destruct (is_high_surrogate c) eqn:Hhigh.
    + destruct rest as [|d rest'].
      * split; [apply utf8_bytes_are_bytes; lia|simpl; lia].
      * destruct (is_low_surrogate d) eqn:Hlow.
        -- cbn [is_jsstring forallb] in Hrest.
           apply andb_true_iff in Hrest as [_ Hrest'].
           cbn [List.length] in Hlen.
           destruct (IH rest' ltac:(lia) Hrest') as [Hb' Hl'].
           apply in_range in Hhigh, Hlow.
           rewrite is_bytes_app, utf8_bytes_are_bytes, Hb' by lia.
           split; [reflexivity|].
           rewrite length_app. cbn [List.length].
           pose proof (utf8_bytes_length
                         (65536 + (c - 55296) * 1024 + (d - 56320))). lia.
        -- rewrite is_bytes_app, utf8_bytes_are_bytes, Hb by lia.
           split; [reflexivity|].
           rewrite length_app. cbn [List.length] in *.
           pose proof (utf8_bytes_length_bmp 65533). lia.
    + assert (Hunit : is_bytes (utf8_bytes 65533 ++ Buffer_from rest) = true
                      /\ (List.length (utf8_bytes 65533 ++ Buffer_from rest)
                          <= 3 * List.length (c :: rest))%nat).
      { rewrite is_bytes_app, utf8_bytes_are_bytes, Hb by lia.
        split; [reflexivity|].
        rewrite length_app. cbn [List.length].
        pose proof (utf8_bytes_length_bmp 65533). lia. }
      destruct (is_low_surrogate c); [exact Hunit|].
      rewrite is_bytes_app, utf8_bytes_are_bytes, Hb by lia.
      split; [reflexivity|].
      rewrite length_app. cbn [List.length].
      pose proof (utf8_bytes_length_bmp c). lia.
Qed.

Section UserShape.

Variable parse : value -> Result value.

(** X11: whatever string [user] is, well-formed or not, the [user] member
    [callOpenAI] and [callOpenRouter] send is base64 text: every character
    is a letter, a digit, '+', '/' or '=', its length is a multiple of 4,
    and it is at most four times as long as [user]. *)
Theorem user_member_is_base64_text (p : LLMParams) (u : jsstring) :
  user p = Some u ->
  is_jsstring u = true ->
  exists doc sent,
    request_body (callOpenAI parse p) = Some doc
    /\ request_body (callOpenRouter p) = Some doc
    /\ get doc (js "user") = inr (VStr sent)
    /\ forallb is_b64_symbol sent = true
    /\ Z.of_nat (List.length sent) mod 4 = 0
    /\ (List.length sent <= 4 * List.length u)%nat.
Proof.
  intros Hu Hs.
  destruct (chat_body_user parse p) as (doc & Hbody & Huser).
  rewrite Hu in Huser. cbn [nullish] in Huser.
  destruct (Buffer_from_bytes_bounded (List.length u) u (le_n _) Hs) as [Hb Hl].
  destruct (toString_base64_shape_bounded _ (Buffer_from u) (le_n _) Hb)
    as [Hsym Hlength].
  exists doc, (toString_base64 (Buffer_from u)).
  split; [exact Hbody|]. split; [exact Hbody|]. split; [exact Huser|].
  split; [exact Hsym|]. split.
  - rewrite Hlength. rewrite Z.mul_comm. apply Z_mod_mult.
  - apply Nat2Z.inj_le. rewrite Hlength. arith.
Qed.

(** X12: requests with different well-formed [user] strings never have
    the same body: from equal bodies of [callOpenAI] (or [callOpenRouter],
    whose body is the same) the two strings are equal. *)
Theorem distinct_users_have_distinct_bodies
    (p1 p2 : LLMParams) (u1 u2 : jsstring) :
  user p1 = Some u1 ->
  user p2 = Some u2 ->
  isWellFormed u1 = true ->
  isWellFormed u2 = true ->
  request_body (callOpenAI parse p1) = request_body (callOpenAI parse p2) ->
  u1 = u2.
Proof.
  intros H1 H2 W1 W2 Hbody.
  destruct (chat_body_user parse p1) as (doc1 & Hb1 & Hu1).
  destruct (chat_body_user parse p2) as (doc2 & Hb2 & Hu2).
  rewrite Hb1, Hb2 in Hbody. injection Hbody as ->.
  rewrite Hu1 in Hu2. rewrite H1, H2 in Hu2. cbn [nullish] in Hu2.
  injection Hu2 as Henc.
  pose proof (decode_user_encode u1 W1) as D1.
  pose proof (decode_user_encode u2 W2) as D2.
  rewrite Henc in D1. rewrite D1 in D2. injection D2 as ->. reflexivity.
Qed.

End UserShape.

(** ** The further properties at concrete requests and responses *)



Lemma openrouter_without_choices :
  snd (run JSON_parse (always (ok_response no_choices_text))
         (callOpenAI JSON_parse (sample_params (js "openai"))))
  = inl (TypeError_read VUndefined (js "message"))
  /\ snd (run JSON_parse (always (ok_response no_choices_text))
            (callOpenRouter (sample_params (js "openrouter"))))
     = inl (TypeError_read VUndefined (js "message")).
Proof.
  split.
  - destruct (chat_adapters_need_a_choice JSON_parse
                (always (ok_response no_choices_text)) OpenAI
                (sample_params (js "openai")) ltac:(discriminate))
      as (url & init & _ & H).
    edestruct (H (ok_response no_choices_text)) as [_ E];
      [reflexivity|cbn [status ok_response]; lia|vm_compute; reflexivity|].
    apply E. vm_compute. reflexivity.
  - destruct (chat_adapters_need_a_choice JSON_parse
                (always (ok_response no_choices_text)) OpenRouter
                (sample_params (js "openrouter")) ltac:(discriminate))
      as (url & init & _ & H).
    edestruct (H (ok_response no_choices_text)) as [_ E];
      [reflexivity|cbn [status ok_response]; lia|vm_compute; reflexivity|].
    apply E. vm_compute. reflexivity.
Defined.


Lemma openai_html_body :
  snd (run JSON_parse (always (ok_response (js "<html>")))
         (callLLM JSON_parse (sample_params (js "openai"))))
  = inl (SyntaxError (js "<html>"))
  /\ snd (run JSON_parse (always (ok_response (js "<html>")))
            (callLLM JSON_parse (sample_params (js "gemini"))))
     = inl (SyntaxError (js "<html>"))
  /\ snd (run JSON_parse (always (ok_response (js "<html>")))
            (callLLM JSON_parse (sample_params (js "openrouter"))))
     = inl (SyntaxError (js "<html>")).
Proof.
  split; [|split].
  - destruct (unparseable_body_rejects JSON_parse
                (always (ok_response (js "<html>"))) OpenAI
                (sample_params (js "openai"))) as (url & init & _ & H).
    edestruct (H (ok_response (js "<html>"))) as [_ E];
      [reflexivity|cbn [status ok_response]; lia|vm_compute; reflexivity|].
    rewrite (E eq_refl). reflexivity.
  - destruct (unparseable_body_rejects JSON_parse
                (always (ok_response (js "<html>"))) Gemini
                (sample_params (js "gemini"))) as (url & init & _ & H).
    edestruct (H (ok_response (js "<html>"))) as [_ E];
      [reflexivity|cbn [status ok_response]; lia|vm_compute; reflexivity|].
    rewrite (E eq_refl). reflexivity.
  - destruct (unparseable_body_rejects JSON_parse
                (always (ok_response (js "<html>"))) OpenRouter
                (sample_params (js "openrouter"))) as (url & init & _ & H).
    edestruct (H (ok_response (js "<html>"))) as [_ E];
      [reflexivity|cbn [status ok_response]; lia|vm_compute; reflexivity|].
    rewrite (E eq_refl). reflexivity.
Defined.


Lemma gemini_two_questions :
  sends_text
    (callGemini (with_messages [capital_question; capital_question]
                   (sample_params (js "gemini"))))
    (js "[user] What is the capital of France?" ++ LF
       ++ js "[user] What is the capital of France?").
Proof.
  apply (gemini_text_composes (sample_params (js "gemini"))
           (sample_params (js "gemini"))
           (with_messages [capital_question; capital_question]
              (sample_params (js "gemini")))).
  - discriminate.
  - discriminate.
  - reflexivity.
  - eexists. split; vm_compute; reflexivity.
  - eexists. split; vm_compute; reflexivity.
Defined.

Lemma lone_surrogate_user_is_base64_text :
  exists doc sent,
    request_body (callOpenAI JSON_parse
                    (with_user (Some [55296]) (sample_params (js "openai"))))
      = Some doc
    /\ get doc (js "user") = inr (VStr sent)
    /\ forallb is_b64_symbol sent = true.
Proof.
  destruct (user_member_is_base64_text JSON_parse
              (with_user (Some [55296]) (sample_params (js "openai")))
              [55296] eq_refl eq_refl)
    as (doc & sent & Ha & _ & Hget & Hsym & _).
  exists doc, sent. split; [exact Ha|]. split; [exact Hget|exact Hsym].
Defined.

Lemma same_body_same_user :
  request_body (callOpenAI JSON_parse (sample_params (js "openai")))
  = request_body (callOpenAI JSON_parse (sample_params (js "openrouter")))
  /\ js "test-user-123" = js "test-user-123".
Proof.
  split; [reflexivity|].
  apply (distinct_users_have_distinct_bodies JSON_parse
           (sample_params (js "openai")) (sample_params (js "openrouter")));
    [reflexivity|reflexivity|vm_compute; reflexivity|vm_compute; reflexivity
    |reflexivity].
Defined.
